(** * compute_run.cpp: the PrintWord compute function and its binary type

    A shallow embedding of [docs/_docs/code-snippets/cpp/src/compute_run.cpp]:
    the [PrintWord] function class, the [BinaryType<PrintWord>]
    specialisation and [main], followed by the properties the documentation
    states about them.

    Conventions of the embedding:
    - [std::string] is [string] (a sequence of 8-bit characters), [int32_t]
      is [Z];
    - a C++ function that writes through a non-const reference parameter
      takes the value the parameter had before the call and returns the value
      it has after it;
    - code with effects (standard output, calls into the cluster) runs in the
      state monad [State] over the part of the world it touches;
    - a nullary C++ function [f()] is a function of [unit]. *)

From Equations Require Import Equations.
From Stdlib Require Import Strings.String Strings.Ascii Strings.Byte.
From Stdlib Require Import List ZArith Lia Bool Arith.
Import ListNotations.

Local Open Scope string_scope.
Local Open Scope list_scope.

(** ** A small state monad *)

Module State.

Definition State (S A : Type) : Type := S -> A * S.

Definition ret {S A} (a : A) : State S A := fun s => (a, s).

Definition bind {S A B} (m : State S A) (k : A -> State S B) : State S B :=
  fun s => let (a, s') := m s in k a s'.

Definition modify {S} (f : S -> S) : State S unit := fun s => (tt, f s).

Definition exec {S A} (m : State S A) (s : S) : S := snd (m s).

Definition eval {S A} (m : State S A) (s : S) : A := fst (m s).

(** A range-based [for] loop whose body returns nothing. *)
Fixpoint for_each {S A} (l : list A) (body : A -> State S unit)
  : State S unit :=
  match l with
  | [] => ret tt
  | x :: l' => bind (body x) (fun _ => for_each l' body)
  end.

End State.
Import State.

Declare Scope state_scope.
Delimit Scope state_scope with state.
Notation "x <- m ;; k" := (bind m (fun x => k))
  (at level 61, m at next level, right associativity) : state_scope.
Notation "m ;;; k" := (bind m (fun _ => k))
  (at level 61, right associativity) : state_scope.
Local Open Scope state_scope.

(** ** Standard library pieces the snippet uses *)

Definition int32_t : Type := Z.

(** [std::cout]: the characters written to standard output so far. *)
Definition ostream : Type := string.

(** [os << s] for a [std::string]. *)
Definition put (s : string) : State ostream unit :=
  modify (fun os => (os ++ s)%string).

(** [os << std::endl]: the line terminator ['\n']. *)
Definition endl : State ostream unit :=
  put (String "010" EmptyString).

(** [std::isspace] in the classic locale: space, and the control characters
    ['\t'], ['\n'], ['\v'], ['\f'], ['\r'] (codes 9 to 13). *)
Definition isspace (c : ascii) : bool :=
  let n := nat_of_ascii c in
  (n =? 32)%nat || ((9 <=? n)%nat && (n <=? 13)%nat).

(** The leading whitespace that formatted extraction skips. *)
Fixpoint skipws (s : string) : string :=
  match s with
  | EmptyString => EmptyString
  | String c s' => if isspace c then skipws s' else s
  end.

(** Characters up to the next whitespace character or the end of the
    stream; the second component is what stays unread. *)
Fixpoint until_ws (s : string) : string * string :=
  match s with
  | EmptyString => (EmptyString, EmptyString)
  | String c s' =>
      if isspace c then (EmptyString, s)
      else let (w, rest) := until_ws s' in (String c w, rest)
  end.

(** [std::istringstream]: the characters not read yet. *)
Definition istringstream : Type := string.

(** [iss >> str] for a [std::string]: skips leading whitespace, then reads up
    to the next whitespace.  [None] is the stream failing, which happens when
    no character is left after the skipped whitespace. *)
Definition extract (iss : istringstream) : option (string * istringstream) :=
  match skipws iss with
  | EmptyString => None
  | String c s' => let (w, rest) := until_ws s' in Some (String c w, rest)
  end.

Definition inspect {A} (a : A) : {b : A | a = b} := exist _ a eq_refl.

(** [std::vector<std::string> words(std::istream_iterator<std::string>(iss),
    std::istream_iterator<std::string>())]: the iterator extracts a string
    on construction and on each increment, and equals the end iterator once
    an extraction fails. *)
Equations? vector_of_istream (iss : istringstream) : list string
  by wf (String.length iss) lt :=
  vector_of_istream iss with inspect (extract iss) => {
    | exist _ (Some (w, rest)) e => w :: vector_of_istream rest;
    | exist _ None _ => [] }.
Proof.
  (* an extraction that succeeds consumes at least one character *)
  assert (Hskip : forall s, String.length (skipws s) <= String.length s).
  { induction s as [|c s IH]; simpl; [lia|].
    destruct (isspace c); simpl; lia. }
  assert (Huntil : forall s, String.length (snd (until_ws s)) <= String.length s).
  { induction s as [|c s IH]; simpl; [lia|].
    destruct (isspace c); simpl; [lia|].
    destruct (until_ws s) as [w' rest']; simpl in *; lia. }
  unfold extract in e. specialize (Hskip iss).
  destruct (skipws iss) as [|c s']; [discriminate|].
  specialize (Huntil s').
  destruct (until_ws s') as [w' rest']. injection e as _ <-.
  simpl in *. lia.
Qed.

(** ** class PrintWord *)

Record PrintWord : Type := mkPrintWord { word : string }.

(** [PrintWord()]: the member [word] is default-initialised, and a
    default-initialised [std::string] is empty. *)
Definition PrintWord_default : PrintWord := {| word := EmptyString |}.

(** [PrintWord(const std::string& word) : word(word)]. *)
Definition PrintWord_of (word : string) : PrintWord := {| word := word |}.

(** [virtual void Call()]: [std::cout << word << std::endl]. *)
Definition Call (this : PrintWord) : State ostream unit :=
  put (word this) ;;; endl.

(** ** The platform's binary streams *)

Module binary.

(** Modelled from the spec: [BinaryRawWriter::WriteString],
    [BinaryRawReader::ReadString] and the stream between them belong to the
    platform (ignite/binary/binary_raw_writer.h and binary_raw_reader.h)
    and are not in this file.  The spec describes them as field-level
    read and write primitives of a binary serialisation mechanism:
    the stream is the sequence of fields written so far, a field holding
    the bytes of one value.  How a field is delimited in the byte stream
    is left to the platform. *)
Definition field : Type := list byte.

(** Modelled from the spec: a [BinaryRawWriter] holds the fields written so
    far. *)
Record BinaryRawWriter : Type := { written : list field }.

(** Modelled from the spec: a [BinaryRawReader] holds the fields of the
    stream it reads and the index of the field it reads next. *)
Record BinaryRawReader : Type := { stream : list field; position : nat }.

(** Modelled from the spec: [BinaryRawWriter::WriteString(const
    std::string&)] appends one field with the bytes of the string. *)
Definition WriteString (raw : BinaryRawWriter) (val : string)
  : BinaryRawWriter :=
  {| written := written raw ++ [list_byte_of_string val] |}.

(** Modelled from the spec: [BinaryRawReader::ReadString()] returns the
    string held by the field at the reader's position and moves to the
    next field.  [None] is the platform's error when no field is left. *)
Definition ReadString (raw : BinaryRawReader)
  : option (string * BinaryRawReader) :=
  match nth_error (stream raw) (position raw) with
  | Some f =>
      Some (string_of_list_byte f,
            {| stream := stream raw; position := S (position raw) |})
  | None => None
  end.

(** [BinaryWriter] and [BinaryReader] give access to the raw stream with
    [RawWriter()] and [RawReader()]. *)
Record BinaryWriter : Type := { RawWriter : BinaryRawWriter }.

Record BinaryReader : Type := { RawReader : BinaryRawReader }.

(** A reader over what [writer] has written, placed at field [pos]. *)
Definition reader_on (writer : BinaryWriter) (pos : nat) : BinaryReader :=
  {| RawReader := {| stream := written (RawWriter writer);
                     position := pos |} |}.

(** The number of fields written so far: where the next value goes. *)
Definition tell (writer : BinaryWriter) : nat :=
  List.length (written (RawWriter writer)).

End binary.
Import binary.

(** ** struct BinaryType<PrintWord> *)

Section BinaryType_PrintWord.

(** [ignite::binary::GetBinaryStringHashCode], declared by the platform's
    headers: any function of the string it is given. *)
Variable GetBinaryStringHashCode : string -> int32_t.

Definition GetTypeId (_ : unit) : int32_t :=
  GetBinaryStringHashCode "PrintWord".

(** [dst] is the string before the call, the result is [dst] after it. *)
Definition GetTypeName (dst : string) : string := "PrintWord".

Definition GetFieldId (name : string) : int32_t :=
  GetBinaryStringHashCode name.

Definition GetHashCode (obj : PrintWord) : int32_t := 0%Z.

Definition IsNull (obj : PrintWord) : bool := false.

(** [dst = PrintWord(s)] for the empty string literal [s]. *)
Definition GetNull (dst : PrintWord) : PrintWord := PrintWord_of EmptyString.

(** [writer.RawWriter().WriteString(obj.word)].  Both reference arguments
    are returned as they are after the call. *)
Definition Write (writer : BinaryWriter) (obj : PrintWord)
  : BinaryWriter * PrintWord :=
  ({| RawWriter := WriteString (RawWriter writer) (word obj) |}, obj).

(** [dst.word = reader.RawReader().ReadString()].  When the read throws,
    nothing is assigned and there is no state after the call. *)
Definition Read (reader : BinaryReader) (dst : PrintWord)
  : option (BinaryReader * PrintWord) :=
  match ReadString (RawReader reader) with
  | Some (s, raw) => Some ({| RawReader := raw |}, {| word := s |})
  | None => None
  end.

End BinaryType_PrintWord.

(** ** main *)

Record IgniteConfiguration : Type := { springCfgPath : string }.

(** [IgniteConfiguration cfg;] leaves the path empty. *)
Definition IgniteConfiguration_default : IgniteConfiguration :=
  {| springCfgPath := EmptyString |}.

(** [cfg.springCfgPath = path]. *)
Definition set_springCfgPath (cfg : IgniteConfiguration) (path : string)
  : IgniteConfiguration :=
  {| springCfgPath := path |}.

(** The handles the platform returns. *)
Inductive Ignite : Type := Ignite_node.
Inductive IgniteBinding : Type := IgniteBinding_of (ignite : Ignite).
Inductive Compute : Type := Compute_of (ignite : Ignite).

(** The calls [main] makes into the platform.  The platform itself is not
    part of the snippet: a run of [main] is modelled by the sequence of calls
    it makes, each of which returns normally. *)
Inductive PlatformCall : Type :=
| Ignition_Start (cfg : IgniteConfiguration)
| Ignite_GetBinding (ignite : Ignite)
| RegisterComputeFunc_PrintWord (binding : IgniteBinding)
| Ignite_GetCompute (ignite : Ignite)
| Compute_Run (compute : Compute) (func : PrintWord).

Definition Cluster : Type := list PlatformCall.

Definition call (c : PlatformCall) : State Cluster unit :=
  modify (fun log => log ++ [c]).

Definition Start (cfg : IgniteConfiguration) : State Cluster Ignite :=
  call (Ignition_Start cfg) ;;; ret Ignite_node.

Definition GetBinding (ignite : Ignite) : State Cluster IgniteBinding :=
  call (Ignite_GetBinding ignite) ;;; ret (IgniteBinding_of ignite).

Definition RegisterComputeFunc (binding : IgniteBinding) : State Cluster unit :=
  call (RegisterComputeFunc_PrintWord binding).

Definition GetCompute (ignite : Ignite) : State Cluster Compute :=
  call (Ignite_GetCompute ignite) ;;; ret (Compute_of ignite).

(** [compute.Run(func)] returns once the function has run. *)
Definition Run (compute : Compute) (func : PrintWord) : State Cluster unit :=
  call (Compute_Run compute func).

(** The body of [main] from the construction of [iss] on, for any text the
    string stream is opened on. *)
Definition run_words (compute : Compute) (text : string) : State Cluster unit :=
  let iss : istringstream := text in
  let words := vector_of_istream iss in
  for_each words (fun word => Run compute (PrintWord_of word)).

Definition sentence : string := "Print words on different cluster nodes".

Definition main (_ : unit) : State Cluster Z :=
  let cfg := IgniteConfiguration_default in
  let cfg := set_springCfgPath cfg "/path/to/configuration.xml" in
  ignite <- Start cfg ;;
  binding <- GetBinding ignite ;;
  RegisterComputeFunc binding ;;;
  compute <- GetCompute ignite ;;
  run_words compute sentence ;;;
  ret 0%Z.

(** The payloads of the [Compute_Run] calls of a log, in order. *)
Fixpoint dispatched (log : Cluster) : list PrintWord :=
  match log with
  | [] => []
  | Compute_Run _ func :: log' => func :: dispatched log'
  | _ :: log' => dispatched log'
  end.

(** ** Splitting on whitespace, as the documentation words it *)

(** The words of a text are its maximal runs of characters that are not
    whitespace, from left to right.  [cur] is the run being read. *)
Fixpoint split_from (cur : string) (s : string) : list string :=
  match s with
  | EmptyString =>
      match cur with EmptyString => [] | _ => [cur] end
  | String c s' =>
      if isspace c then
        match cur with
        | EmptyString => split_from EmptyString s'
        | _ => cur :: split_from EmptyString s'
        end
      else split_from (cur ++ String c EmptyString)%string s'
  end.

Definition split_whitespace (s : string) : list string :=
  split_from EmptyString s.

(** ** Vocabulary for the properties of the word loop *)

(** No character of [s] is whitespace. *)
Fixpoint no_space (s : string) : bool :=
  match s with
  | EmptyString => true
  | String c s' => negb (isspace c) && no_space s'
  end.

(** A word: at least one character, none of them whitespace. *)
Definition is_word (w : string) : bool :=
  match w with
  | EmptyString => false
  | String _ _ => no_space w
  end.

(** Every character of [s] is whitespace (so also when [s] is empty). *)
Fixpoint all_space (s : string) : bool :=
  match s with
  | EmptyString => true
  | String c s' => isspace c && all_space s'
  end.

(** [s] without its whitespace characters. *)
Fixpoint strip_ws (s : string) : string :=
  match s with
  | EmptyString => EmptyString
  | String c s' => if isspace c then strip_ws s' else String c (strip_ws s')
  end.

(** The words of the objects of a list, one after the other. *)
Fixpoint words_joined (l : list PrintWord) : string :=
  match l with
  | [] => EmptyString
  | p :: l' => (word p ++ words_joined l')%string
  end.

(** The words of the objects of a list, each followed by a line
    terminator. *)
Fixpoint word_lines (l : list PrintWord) : string :=
  match l with
  | [] => EmptyString
  | p :: l' => (word p ++ String "010" (word_lines l'))%string
  end.

(** * Properties *)

(** ** Strings *)

Lemma append_nil_r (s : string) : (s ++ EmptyString)%string = s.
Proof. induction s as [|c s IH]; simpl; [reflexivity | now rewrite IH]. Qed.

Lemma append_assoc (s1 s2 s3 : string) :
  ((s1 ++ s2) ++ s3)%string = (s1 ++ (s2 ++ s3))%string.
Proof. induction s1 as [|c s1 IH]; simpl; [reflexivity | now rewrite IH]. Qed.

Lemma append_snoc_nonempty (cur : string) (c : ascii) :
  (cur ++ String c EmptyString)%string <> EmptyString.
Proof. destruct cur; discriminate. Qed.

(** ** The iterator loop reads exactly the whitespace-separated words *)

Lemma skipws_head (s : string) (c : ascii) (s' : string) :
  skipws s = String c s' -> isspace c = false.
Proof.
  induction s as [|a s IH]; simpl; [discriminate|].
  destruct (isspace a) eqn:Ha; [exact IH|].
  intros H. injection H as <- _. exact Ha.
Qed.

Lemma split_from_skipws (s : string) :
  split_from EmptyString s = split_from EmptyString (skipws s).
Proof.
  induction s as [|c s IH]; simpl; [reflexivity|].
  destruct (isspace c) eqn:Hc; [exact IH|].
  simpl. now rewrite Hc.
Qed.

Lemma split_from_until_ws (s cur : string) :
  cur <> EmptyString ->
  split_from cur s =
  (cur ++ fst (until_ws s))%string :: split_from EmptyString (snd (until_ws s)).
Proof.
  revert cur. induction s as [|c s IH]; intros cur Hcur; simpl.
  - rewrite append_nil_r. destruct cur; [congruence | reflexivity].
  - destruct (isspace c) eqn:Hc; simpl.
    + rewrite Hc, append_nil_r. destruct cur; [congruence | reflexivity].
    + rewrite (IH _ (append_snoc_nonempty cur c)).
      destruct (until_ws s) as [w rest]; simpl.
      now rewrite append_assoc.
Qed.

Lemma extract_Some_split (iss w rest : string) :
  extract iss = Some (w, rest) ->
  split_from EmptyString iss = w :: split_from EmptyString rest.
Proof.
  unfold extract. intros H. rewrite split_from_skipws.
  destruct (skipws iss) as [|c s'] eqn:E; [discriminate|].
  apply skipws_head in E. simpl. rewrite E.
  rewrite split_from_until_ws by discriminate.
  destruct (until_ws s') as [w' rest']. injection H as <- <-. reflexivity.
Qed.

Lemma extract_None_split (iss : string) :
  extract iss = None -> split_from EmptyString iss = [].
Proof.
  unfold extract. intros H. rewrite split_from_skipws.
  destruct (skipws iss) as [|c s']; [reflexivity|].
  destruct (until_ws s'); discriminate.
Qed.

Lemma vector_of_istream_split (iss : istringstream) :
  vector_of_istream iss = split_whitespace iss.
Proof.
  unfold split_whitespace.
  funelim (vector_of_istream iss).
  - match goal with IH : vector_of_istream _ = split_from _ _ |- _ =>
      rewrite IH end.
    symmetry. now apply extract_Some_split.
  - symmetry. now apply extract_None_split.
Qed.

(** ** The log of a run *)

Lemma exec_bind {S A B} (m : State S A) (k : A -> State S B) (s : S) :
  exec (bind m k) s = exec (k (eval m s)) (exec m s).
Proof. unfold exec, eval, bind. now destruct (m s). Qed.

Lemma exec_call (c : PlatformCall) (log : Cluster) :
  exec (call c) log = log ++ [c].
Proof. reflexivity. Qed.

Lemma exec_for_each_Run (compute : Compute) (words : list string) :
  forall log : Cluster,
    exec (for_each words (fun word => Run compute (PrintWord_of word))) log =
    log ++ map (fun word => Compute_Run compute (PrintWord_of word)) words.
Proof.
  induction words as [|w words IH]; intros log; simpl.
  - now rewrite app_nil_r.
  - rewrite exec_bind, IH. unfold Run. rewrite exec_call.
    now rewrite <- app_assoc.
Qed.

Lemma dispatched_app (l1 l2 : Cluster) :
  dispatched (l1 ++ l2) = dispatched l1 ++ dispatched l2.
Proof.
  induction l1 as [|c l1 IH]; simpl; [reflexivity|].
  destruct c; simpl; now rewrite IH.
Qed.

Lemma dispatched_Run (compute : Compute) (words : list string) :
  dispatched (map (fun word => Compute_Run compute (PrintWord_of word)) words) =
  map PrintWord_of words.
Proof. induction words as [|w words IH]; simpl; [reflexivity | now rewrite IH]. Qed.

Lemma exec_run_words (compute : Compute) (text : string) (log : Cluster) :
  exec (run_words compute text) log =
  log ++ map (fun word => Compute_Run compute (PrintWord_of word))
             (split_whitespace text).
Proof.
  unfold run_words. now rewrite exec_for_each_Run, vector_of_istream_split.
Qed.

Lemma exec_ret {S A} (a : A) (s : S) : exec (ret a) s = s.
Proof. reflexivity. Qed.

Section platform_calls.

Variables (cfg : IgniteConfiguration) (ignite : Ignite)
          (binding : IgniteBinding) (log : Cluster).

Lemma exec_Start : exec (Start cfg) log = log ++ [Ignition_Start cfg].
Proof. reflexivity. Qed.

Lemma eval_Start : eval (Start cfg) log = Ignite_node.
Proof. reflexivity. Qed.

Lemma exec_GetBinding :
  exec (GetBinding ignite) log = log ++ [Ignite_GetBinding ignite].
Proof. reflexivity. Qed.

Lemma eval_GetBinding : eval (GetBinding ignite) log = IgniteBinding_of ignite.
Proof. reflexivity. Qed.

Lemma exec_RegisterComputeFunc :
  exec (RegisterComputeFunc binding) log =
  log ++ [RegisterComputeFunc_PrintWord binding].
Proof. reflexivity. Qed.

Lemma exec_GetCompute :
  exec (GetCompute ignite) log = log ++ [Ignite_GetCompute ignite].
Proof. reflexivity. Qed.

Lemma eval_GetCompute : eval (GetCompute ignite) log = Compute_of ignite.
Proof. reflexivity. Qed.

End platform_calls.

Create Rewrite HintDb platform.

#[local] Hint Rewrite @exec_bind @exec_ret exec_Start eval_Start
  exec_GetBinding eval_GetBinding exec_RegisterComputeFunc
  exec_GetCompute eval_GetCompute exec_run_words : platform.

Lemma exec_main (log : Cluster) :
  exec (main tt) log =
  log ++ [Ignition_Start {| springCfgPath := "/path/to/configuration.xml" |};
          Ignite_GetBinding Ignite_node;
          RegisterComputeFunc_PrintWord (IgniteBinding_of Ignite_node);
          Ignite_GetCompute Ignite_node]
      ++ map (fun word => Compute_Run (Compute_of Ignite_node) (PrintWord_of word))
             (split_whitespace sentence).
Proof.
  unfold main. cbv zeta. autorewrite with platform.
  repeat rewrite <- app_assoc. cbn [app]. reflexivity.
Qed.

(** ** The definitions at work *)

Example vector_of_istream_sentence :
  vector_of_istream sentence =
  ["Print"; "words"; "on"; "different"; "cluster"; "nodes"].
Proof. reflexivity. Qed.

Example vector_of_istream_blanks :
  vector_of_istream (String "009" " two" ++ String "010" "lines  ")%string =
  ["two"; "lines"].
Proof. reflexivity. Qed.

Example vector_of_istream_only_blanks : vector_of_istream "   " = [].
Proof. reflexivity. Qed.

Example Call_on_nodes :
  Call (PrintWord_of "nodes") "cluster" =
  (tt, ("cluster" ++ "nodes" ++ String "010" EmptyString)%string).
Proof. reflexivity. Qed.

Example Write_then_Read_second_field :
  let writer := fst (Write {| RawWriter := {| written := [] |} |}
                           (PrintWord_of "Print")) in
  Read (reader_on (fst (Write writer (PrintWord_of "words"))) 1)
       PrintWord_default
  = Some ({| RawReader :=
               {| stream := [list_byte_of_string "Print";
                             list_byte_of_string "words"];
                  position := 2 |} |},
          PrintWord_of "words").
Proof. reflexivity. Qed.

Example Read_past_the_end :
  Read (reader_on {| RawWriter := {| written := [] |} |} 0) PrintWord_default
  = None.
Proof. reflexivity. Qed.

(** ** main *)

(** C1, as the documentation words it: a run of [main] makes exactly five
    dispatch calls.  The sentence has six words, and so the run makes six
    calls: the count of five does not hold. *)
Lemma main_not_five_dispatches :
  List.length (dispatched (exec (main tt) [])) <> 5.
Proof. rewrite exec_main. vm_compute. discriminate. Qed.

Lemma map_word_PrintWord_of (words : list string) :
  map word (map PrintWord_of words) = words.
Proof.
  induction words as [|w words IH]; simpl; [reflexivity | now rewrite IH].
Qed.

(** C1, amended: a run of [main] on its fixed sentence makes exactly six
    dispatch calls, and the words the dispatched objects carry are "Print",
    "words", "on", "different", "cluster", "nodes" in that order. *)
Theorem main_six_dispatches :
  map word (dispatched (exec (main tt) [])) =
    ["Print"; "words"; "on"; "different"; "cluster"; "nodes"]
  /\ List.length (dispatched (exec (main tt) [])) = 6.
Proof. rewrite exec_main. vm_compute. split; reflexivity. Qed.

(** C3: [main] takes no input and runs on the hard-coded [sentence];
    whatever the text of the string stream, the loop extends the log by
    [Run] calls only, one per whitespace-separated word of the text, one
    after the other in the order of the words, each on an object whose
    [word] is that word; so the words of the payloads are the whitespace
    split of the text, and those dispatched by [main] are the whitespace
    split of [sentence]. *)
Theorem main_dispatches_whitespace_split :
  (forall (compute : Compute) (text : string) (log : Cluster),
      exists funcs : list PrintWord,
        exec (run_words compute text) log =
          log ++ map (Compute_Run compute) funcs
        /\ map word funcs = split_whitespace text)
  /\ (forall (compute : Compute) (text : string),
        map word (dispatched (exec (run_words compute text) [])) =
        split_whitespace text)
  /\ map word (dispatched (exec (main tt) [])) = split_whitespace sentence.
Proof.
  split; [|split].
  - intros compute text log.
    exists (map PrintWord_of (split_whitespace text)). split.
    + now rewrite exec_run_words, map_map.
    + apply map_word_PrintWord_of.
  - intros compute text.
    rewrite exec_run_words; cbn [app].
    now rewrite dispatched_Run, map_word_PrintWord_of.
  - rewrite exec_main, app_assoc, dispatched_app, dispatched_Run.
    cbn [dispatched app]. apply map_word_PrintWord_of.
Qed.

(** ** PrintWord *)

(** C4: [Call] takes nothing but the object, returns the unit value, and
    leaves standard output extended by the stored word and a line
    terminator, written once; its result type has no error case. *)
Theorem Call_writes_word_line (this : PrintWord) (out : ostream) :
  Call this out = (tt, (out ++ word this ++ String "010" EmptyString)%string).
Proof.
  unfold Call, endl, put, bind, modify. now rewrite append_assoc.
Qed.

(** ** BinaryType<PrintWord> *)

(** C5: [GetHashCode] is 0 whatever the object holds. *)
Theorem GetHashCode_zero (obj : PrintWord) : GetHashCode obj = 0%Z.
Proof. reflexivity. Qed.

(** C6: [GetTypeId] is the binary-string hash of "PrintWord", and
    [GetFieldId] of a field name is the binary-string hash of that name. *)
Theorem GetTypeId_GetFieldId_hash (hash : string -> int32_t) :
  GetTypeId hash tt = hash "PrintWord"
  /\ forall name : string, GetFieldId hash name = hash name.
Proof. split; reflexivity. Qed.

(** C7: [Write] leaves the object it serialises as it was; in particular
    its [word] is the one it had before the call. *)
Theorem Write_keeps_object (writer : BinaryWriter) (obj : PrintWord) :
  snd (Write writer obj) = obj
  /\ word (snd (Write writer obj)) = word obj.
Proof. split; reflexivity. Qed.

(** C8: [IsNull] is false for every object, the one [GetNull] builds
    included. *)
Theorem IsNull_false :
  (forall obj : PrintWord, IsNull obj = false)
  /\ (forall dst : PrintWord, IsNull (GetNull dst) = false).
Proof. split; reflexivity. Qed.

(** C9: the object [GetNull] builds holds the empty string, as a
    default-constructed [PrintWord] does. *)
Theorem GetNull_empty_word (dst : PrintWord) :
  word (GetNull dst) = EmptyString
  /\ word (GetNull dst) = word PrintWord_default.
Proof. split; reflexivity. Qed.

(** C10: [GetTypeId] is [GetFieldId] of the name [GetTypeName] writes
    (whatever the string held before), and any two calls of [GetTypeId]
    return the same value. *)
Theorem GetTypeId_is_GetFieldId_of_GetTypeName (hash : string -> int32_t) :
  (forall dst : string, GetTypeId hash tt = GetFieldId hash (GetTypeName dst))
  /\ (forall call1 call2 : unit, GetTypeId hash call1 = GetTypeId hash call2).
Proof. split; reflexivity. Qed.

(** ** Serialisation round trip *)

Lemma nth_error_snoc {A} (l : list A) (x : A) :
  nth_error (l ++ [x]) (List.length l) = Some x.
Proof. induction l as [|y l IH]; simpl; [reflexivity | exact IH]. Qed.

Lemma ReadString_WriteString (raw : BinaryRawWriter) (val : string) :
  ReadString {| stream := written (WriteString raw val);
                position := List.length (written raw) |} =
  Some (val, {| stream := written (WriteString raw val);
                position := S (List.length (written raw)) |}).
Proof.
  unfold ReadString, WriteString; simpl.
  now rewrite nth_error_snoc, string_of_list_byte_of_string.
Qed.

(** C2: reading, with [Read], the bytes [Write] has put on the stream
    succeeds and yields an object whose [word] is that of the object
    written, whatever was written before it and whatever the destination
    held. *)
Theorem Write_Read_round_trip (writer : BinaryWriter) (obj dst : PrintWord) :
  exists (reader' : BinaryReader) (dst' : PrintWord),
    Read (reader_on (fst (Write writer obj)) (tell writer)) dst
      = Some (reader', dst')
    /\ word dst' = word obj.
Proof.
  unfold Read, reader_on, tell, Write; cbn [fst RawWriter RawReader].
  rewrite ReadString_WriteString.
  eexists _, _. split; reflexivity.
Qed.

(** * Further properties of the code *)

(** ** The word loop, for any text *)

Lemma dispatched_run_words (compute : Compute) (text : string) :
  dispatched (exec (run_words compute text) []) =
  map PrintWord_of (split_whitespace text).
Proof. rewrite exec_run_words. simpl. apply dispatched_Run. Qed.

Lemma no_space_snoc (cur : string) (c : ascii) :
  no_space cur = true -> isspace c = false ->
  no_space (cur ++ String c EmptyString) = true.
Proof.
  intros Hcur Hc. induction cur as [|a cur IH]; simpl in *.
  - now rewrite Hc.
  - apply andb_true_iff in Hcur as [Ha Hcur]. now rewrite Ha, IH.
Qed.

Lemma is_word_nonempty (w : string) :
  w <> EmptyString -> no_space w = true -> is_word w = true.
Proof. destruct w; [congruence | intros _ H; exact H]. Qed.

Lemma split_from_words (s : string) :
  forall cur : string,
    no_space cur = true ->
    Forall (fun w => is_word w = true) (split_from cur s).
Proof.
  induction s as [|c s IH]; intros cur Hcur; simpl.
  - destruct cur; [constructor|].
    constructor; [exact Hcur | constructor].
  - destruct (isspace c) eqn:Hc.
    + destruct cur; [now apply IH|].
      constructor; [exact Hcur | now apply IH].
    + apply IH. now apply no_space_snoc.
Qed.

Lemma split_from_nil (s : string) :
  forall cur : string,
    split_from cur s = [] <-> cur = EmptyString /\ all_space s = true.
Proof.
  induction s as [|c s IH]; intros cur; simpl.
  - destruct cur; split; try tauto; try discriminate.
    intros [H _]; discriminate.
  - destruct (isspace c) eqn:Hc; simpl.
    + destruct cur.
      * rewrite IH. tauto.
      * split; [discriminate | intros [H _]; discriminate].
    + rewrite IH. split; [|intros [_ H]; discriminate].
      intros [H _]. now apply append_snoc_nonempty in H.
Qed.

Lemma split_from_app_space (a b : string) (c : ascii) :
  isspace c = true ->
  forall cur : string,
    split_from cur (a ++ String c b) =
    split_from cur a ++ split_from EmptyString b.
Proof.
  intros Hc. induction a as [|x a IH]; intros cur; simpl.
  - rewrite Hc. now destruct cur.
  - destruct (isspace x).
    + destruct cur; simpl; now rewrite IH.
    + apply IH.
Qed.

Lemma split_from_strip (s : string) :
  forall cur : string,
    fold_right append EmptyString (split_from cur s) =
    (cur ++ strip_ws s)%string.
Proof.
  induction s as [|c s IH]; intros cur; simpl.
  - destruct cur; simpl; [reflexivity|]. now rewrite !append_nil_r.
  - destruct (isspace c).
    + destruct cur; simpl; now rewrite IH.
    + rewrite IH, append_assoc. reflexivity.
Qed.

Lemma split_from_count (s : string) :
  forall cur : string,
    2 * List.length (split_from cur s) <=
    String.length s + match cur with EmptyString => 1 | _ => 2 end.
Proof.
  induction s as [|c s IH]; intros cur; simpl.
  - destruct cur; simpl; lia.
  - destruct (isspace c).
    + specialize (IH EmptyString). destruct cur; simpl in *; lia.
    + specialize (IH (cur ++ String c EmptyString)%string).
      destruct (cur ++ String c EmptyString)%string eqn:E.
      * now apply append_snoc_nonempty in E.
      * destruct cur; simpl in *; lia.
Qed.

Lemma split_from_word (w : string) :
  no_space w = true ->
  forall cur : string,
    split_from cur w =
    match (cur ++ w)%string with
    | EmptyString => []
    | _ => [(cur ++ w)%string]
    end.
Proof.
  induction w as [|c w IH]; intros Hw cur; simpl in *.
  - rewrite append_nil_r. reflexivity.
  - apply andb_true_iff in Hw as [Hc Hw].
    apply negb_true_iff in Hc. rewrite Hc, (IH Hw), append_assoc.
    reflexivity.
Qed.

Lemma words_joined_map (ws : list string) :
  words_joined (map PrintWord_of ws) = fold_right append EmptyString ws.
Proof. induction ws as [|w ws IH]; simpl; [reflexivity | now rewrite IH]. Qed.

Lemma word_lines_split (ws : list string) :
  Forall (fun w => is_word w = true) ws ->
  split_whitespace (word_lines (map PrintWord_of ws)) = ws.
Proof.
  unfold split_whitespace.
  induction 1 as [|w ws Hw _ IH]; simpl; [reflexivity|].
  rewrite split_from_app_space by reflexivity. rewrite IH.
  destruct w as [|c w]; [discriminate|].
  rewrite (split_from_word (String c w) Hw). reflexivity.
Qed.

(** X1: whatever the text, every object the loop dispatches carries a word:
    a string of at least one character, none of them whitespace. *)
Theorem run_words_dispatches_words (compute : Compute) (text : string) :
  Forall (fun func => is_word (word func) = true)
         (dispatched (exec (run_words compute text) [])).
Proof.
  rewrite dispatched_run_words. apply Forall_map.
  apply split_from_words. reflexivity.
Qed.

(** X2: the loop makes no call at all exactly when the text is empty or
    holds whitespace only. *)
Theorem run_words_blank (compute : Compute) (text : string) (log : Cluster) :
  exec (run_words compute text) log = log <-> all_space text = true.
Proof.
  rewrite exec_run_words. unfold split_whitespace. split.
  - intros H. rewrite <- (app_nil_r log) in H at 2.
    apply app_inv_head in H. apply map_eq_nil in H.
    now apply split_from_nil in H.
  - intros H.
    assert (E : split_from EmptyString text = [])
      by (apply split_from_nil; now split).
    rewrite E. simpl. apply app_nil_r.
Qed.

(** X3: a whitespace character cuts the work in two: running the loop on
    [a], the character and [b] makes the calls of the loop on [a] followed
    by the calls of the loop on [b]. *)
Theorem run_words_app_space
  (compute : Compute) (a b : string) (c : ascii) (log : Cluster) :
  isspace c = true ->
  exec (run_words compute (a ++ String c b)) log =
  exec (run_words compute b) (exec (run_words compute a) log).
Proof.
  intros Hc. rewrite !exec_run_words. unfold split_whitespace.
  rewrite (split_from_app_space a b c Hc), map_app. apply app_assoc.
Qed.

Lemma run_words_app_space_witness :
  isspace "009" = true
  /\ exec (run_words (Compute_of Ignite_node) ("Print" ++ String "009" "words"))
          [] =
     exec (run_words (Compute_of Ignite_node) "words")
          (exec (run_words (Compute_of Ignite_node) "Print") []).
Proof.
  split; [reflexivity|].
  apply (run_words_app_space (Compute_of Ignite_node) "Print" "words" "009" []).
  reflexivity.
Defined.

(** X4: the loop drops whitespace and nothing else: the dispatched words,
    one after the other, are the text without its whitespace characters. *)
Theorem run_words_keeps_characters (compute : Compute) (text : string) :
  words_joined (dispatched (exec (run_words compute text) [])) =
  strip_ws text.
Proof.
  rewrite dispatched_run_words, words_joined_map.
  unfold split_whitespace. now rewrite split_from_strip.
Qed.

(** X5: a text of [n] characters gives at most [(n + 1) / 2] dispatch
    calls. *)
Theorem run_words_dispatch_count (compute : Compute) (text : string) :
  2 * List.length (dispatched (exec (run_words compute text) [])) <=
  String.length text + 1.
Proof.
  rewrite dispatched_run_words, length_map.
  exact (split_from_count text EmptyString).
Qed.

(** ** Call *)

Lemma exec_Call (this : PrintWord) (out : ostream) :
  exec (Call this) out = ((out ++ word this) ++ String "010" EmptyString)%string.
Proof. reflexivity. Qed.

Lemma exec_for_each_Call (funcs : list PrintWord) :
  forall out : ostream,
    exec (for_each funcs Call) out = (out ++ word_lines funcs)%string.
Proof.
  induction funcs as [|p funcs IH]; intros out; simpl.
  - unfold exec, ret; simpl. now rewrite append_nil_r.
  - rewrite exec_bind, IH, exec_Call.
    now rewrite !append_assoc.
Qed.

(** X6: calling [Call] on the objects of a list, one after the other on the
    same standard output, keeps what was there and adds the words in the
    order of the list, each followed by a line terminator. *)
Theorem Call_sequence (funcs : list PrintWord) (out : ostream) :
  exec (for_each funcs Call) out = (out ++ word_lines funcs)%string.
Proof. apply exec_for_each_Call. Qed.

(** X7: printing and reading back.  When the objects the loop dispatches
    for a text are called in dispatch order on one, initially empty,
    standard output, reading the words of that output with the same
    iterator loop gives the words of the text again. *)
Theorem printed_words_read_back (compute : Compute) (text : string) :
  vector_of_istream
    (exec (for_each (dispatched (exec (run_words compute text) [])) Call)
          EmptyString) =
  vector_of_istream text.
Proof.
  rewrite exec_for_each_Call, dispatched_run_words. cbn [append].
  rewrite !vector_of_istream_split.
  apply word_lines_split. apply split_from_words. reflexivity.
Qed.

(** ** Write and Read on one stream *)

Lemma nth_error_snoc2 {A} (l : list A) (x y : A) :
  nth_error ((l ++ [x]) ++ [y]) (List.length l) = Some x
  /\ nth_error ((l ++ [x]) ++ [y]) (S (List.length l)) = Some y.
Proof.
  split.
  - rewrite nth_error_app1 by (rewrite length_app; simpl; lia).
    apply nth_error_snoc.
  - replace (S (List.length l)) with (List.length (l ++ [x]))
      by (rewrite length_app; simpl; lia).
    apply nth_error_snoc.
Qed.

(** X8: two objects written one after the other are read back in the order
    they were written: on the stream left by [Write a] then [Write b], a
    [Read] placed where [a] went yields the word of [a], and a second
    [Read], from the reader the first one leaves, yields the word of [b]. *)
Theorem Write_Write_Read_Read
  (writer : BinaryWriter) (a b dst1 dst2 : PrintWord) :
  exists (reader1 reader2 : BinaryReader) (got1 got2 : PrintWord),
    Read (reader_on (fst (Write (fst (Write writer a)) b)) (tell writer)) dst1
      = Some (reader1, got1)
    /\ word got1 = word a
    /\ Read reader1 dst2 = Some (reader2, got2)
    /\ word got2 = word b.
Proof.
  destruct (nth_error_snoc2 (written (RawWriter writer))
              (list_byte_of_string (word a)) (list_byte_of_string (word b)))
    as [H1 H2].
  unfold Read, reader_on, tell, Write, ReadString, WriteString;
    cbn [fst RawWriter RawReader written stream position].
  unfold field in *. eexists _, _, _, _.
  split; [rewrite H1; reflexivity|].
  split; [apply string_of_list_byte_of_string|].
  cbn [RawReader stream position].
  split; [rewrite H2; reflexivity|].
  apply string_of_list_byte_of_string.
Qed.

(** ** The order of the calls of main *)

(** X9: in a run of [main], every dispatch call comes after the platform
    was started with the configuration whose path is
    "/path/to/configuration.xml" and after [PrintWord] was registered as a
    compute function. *)
Theorem main_registers_before_dispatch
  (before after : Cluster) (compute : Compute) (func : PrintWord) :
  exec (main tt) [] = before ++ Compute_Run compute func :: after ->
  In (Ignition_Start {| springCfgPath := "/path/to/configuration.xml" |}) before
  /\ In (RegisterComputeFunc_PrintWord (IgniteBinding_of Ignite_node)) before.
Proof.
  rewrite exec_main. cbn [app].
  intros H.
  destruct before as [|c1 [|c2 [|c3 [|c4 before]]]]; cbn [app] in H;
    try discriminate H.
  injection H as <- <- <- <- _.
  split; simpl; tauto.
Qed.

Lemma main_registers_before_dispatch_witness :
  In (Ignition_Start {| springCfgPath := "/path/to/configuration.xml" |})
     [Ignition_Start {| springCfgPath := "/path/to/configuration.xml" |};
      Ignite_GetBinding Ignite_node;
      RegisterComputeFunc_PrintWord (IgniteBinding_of Ignite_node);
      Ignite_GetCompute Ignite_node;
      Compute_Run (Compute_of Ignite_node) (PrintWord_of "Print")]
  /\ In (RegisterComputeFunc_PrintWord (IgniteBinding_of Ignite_node))
        [Ignition_Start {| springCfgPath := "/path/to/configuration.xml" |};
         Ignite_GetBinding Ignite_node;
         RegisterComputeFunc_PrintWord (IgniteBinding_of Ignite_node);
         Ignite_GetCompute Ignite_node;
         Compute_Run (Compute_of Ignite_node) (PrintWord_of "Print")].
Proof.
  apply (main_registers_before_dispatch
           _
           (map (fun w => Compute_Run (Compute_of Ignite_node) (PrintWord_of w))
                ["on"; "different"; "cluster"; "nodes"])
           (Compute_of Ignite_node) (PrintWord_of "words")).
  vm_compute. reflexivity.
Defined.
